(** * icloud_auto_download: month planner, asset filter, filename deriver
      and downloader

    A shallow embedding of [icloud_auto_download.py].

    - Python [str] values are strings over the code points below 256
      ([str.lower], [str.strip] and the digit test are exact there).
    - A [datetime] is the record of its civil fields; every instant of the
      program is UTC-aware, so comparison is field by field.
    - The file system is a finite map from paths to file contents; the
      directory a file is written to exists ([main] calls [ensure_dir]) and
      writes themselves do not fail.
    - An asset's [download] capability is an oracle: the outcome of its
      k-th invocation. *)

From Stdlib Require Import ZArith QArith Lia Ascii String Strings.Byte.
From stdpp Require Import base gmap strings list.

Local Open Scope string_scope.
Local Open Scope Z_scope.

(** ** Text primitives *)

Definition code (c : ascii) : Z := Z.of_N (N_of_ascii c).

Definition chr (n : Z) : ascii := ascii_of_N (Z.to_N n).

Definition between (lo hi n : Z) : bool := (lo <=? n) && (n <=? hi).

(** [str.lower] on one character: A-Z, and the upper-case letters of the
    Latin-1 block (all of 0xC0-0xDE but the multiplication sign 0xD7). *)
Definition lower_char (c : ascii) : ascii :=
  let n := code c in
  if between 65 90 n || (between 192 222 n && negb (n =? 215))
  then chr (n + 32) else c.

Fixpoint lower (s : string) : string :=
  match s with
  | EmptyString => EmptyString
  | String c r => String (lower_char c) (lower r)
  end.

(** [str.isspace] on one character. *)
Definition is_space (c : ascii) : bool :=
  let n := code c in
  between 9 13 n || between 28 32 n || (n =? 133) || (n =? 160).

Fixpoint lstrip (s : string) : string :=
  match s with
  | EmptyString => EmptyString
  | String c r => if is_space c then lstrip r else s
  end.

Fixpoint rstrip (s : string) : string :=
  match s with
  | EmptyString => EmptyString
  | String c r =>
      match rstrip r with
      | EmptyString => if is_space c then EmptyString else String c EmptyString
      | r' => String c r'
      end
  end.

(** [s.strip()] *)
Definition strip (s : string) : string := rstrip (lstrip s).

Definition ascii_eqb (a b : ascii) : bool := bool_decide (a = b).

(** [c in s] for a single character [c] *)
Fixpoint char_in (c : ascii) (s : string) : bool :=
  match s with
  | EmptyString => false
  | String d r => ascii_eqb c d || char_in c r
  end.

(** ["".join(c for c in s if keep c)] *)
Fixpoint join_filter (keep : ascii -> bool) (s : string) : string :=
  match s with
  | EmptyString => EmptyString
  | String c r =>
      if keep c then String c (join_filter keep r) else join_filter keep r
  end.

(** [s.split(sep)] for a one-character separator: never the empty list. *)
Fixpoint split (sep : ascii) (s : string) : list string :=
  match s with
  | EmptyString => [EmptyString]
  | String c r =>
      if ascii_eqb c sep then EmptyString :: split sep r
      else match split sep r with
           | p :: ps => String c p :: ps
           | [] => [String c EmptyString]
           end
  end.

(** [parts[-1]] *)
Definition last_part (parts : list string) : string :=
  List.last parts EmptyString.

Definition digit_char (n : Z) : ascii := chr (48 + n).

Fixpoint decimal_loop (fuel : nat) (n : Z) (acc : string) : string :=
  match fuel with
  | O => acc
  | S f =>
      let acc' := String (digit_char (n mod 10)) acc in
      if n <? 10 then acc' else decimal_loop f (n / 10) acc'
  end.

(** Decimal numeral of a non-negative integer. *)
Definition decimal (n : Z) : string :=
  decimal_loop (S (Z.to_nat (Z.log2 n))) n EmptyString.

Fixpoint zeros (k : nat) : string :=
  match k with
  | O => EmptyString
  | S k' => String "0" (zeros k')
  end.

(** [%0wd]: the numeral, zero-filled on the left to width [w]. *)
Definition zfill (w : nat) (n : Z) : string :=
  let s := decimal n in zeros (w - String.length s) +:+ s.

Definition is_digit (c : ascii) : bool := between 48 57 (code c).

Definition digit_val (c : ascii) : Z := code c - 48.

(** ** Exceptions *)

Record exn := Exn { exn_type : string; exn_text : string }.

(** ** datetime and calendar *)

Record datetime := DateTime {
  year : Z; month : Z; day : Z;
  hour : Z; minute : Z; second : Z; microsecond : Z
}.

Definition MINYEAR : Z := 1.
Definition MAXYEAR : Z := 9999.

(** [calendar.isleap] *)
Definition isleap (y : Z) : bool :=
  (y mod 4 =? 0) && (negb (y mod 100 =? 0) || (y mod 400 =? 0)).

(** [calendar.mdays] *)
Definition mdays : list Z := [0; 31; 28; 31; 30; 31; 30; 31; 31; 30; 31; 30; 31].

(** Second component of [calendar.monthrange(year, month)], for a month in
    1..12. *)
Definition monthrange_ndays (y m : Z) : Z :=
  nth (Z.to_nat m) mdays 0 + (if (m =? 2) && isleap y then 1 else 0).

(** The date check of the [datetime] constructor and of [replace]. *)
Definition check_date (y m d : Z) : option exn :=
  if negb (between MINYEAR MAXYEAR y)
  then Some (Exn "ValueError" ("year " +:+ decimal y +:+ " is out of range"))
  else if negb (between 1 12 m)
  then Some (Exn "ValueError" "month must be in 1..12")
  else if negb (between 1 (monthrange_ndays y m) d)
  then Some (Exn "ValueError" "day is out of range for month")
  else None.

Definition valid_datetime (d : datetime) : Prop :=
  check_date (year d) (month d) (day d) = None /\
  0 <= hour d <= 23 /\ 0 <= minute d <= 59 /\ 0 <= second d <= 59 /\
  0 <= microsecond d <= 999999.

(** Comparison of two aware UTC datetimes: field by field. *)
Definition dt_compare (a b : datetime) : comparison :=
  match year a ?= year b with
  | Eq => match month a ?= month b with
    | Eq => match day a ?= day b with
      | Eq => match hour a ?= hour b with
        | Eq => match minute a ?= minute b with
          | Eq => match second a ?= second b with
            | Eq => microsecond a ?= microsecond b
            | c => c end
          | c => c end
        | c => c end
      | c => c end
    | c => c end
  | c => c
  end.

(** [a <= b] *)
Definition dt_leb (a b : datetime) : bool :=
  match dt_compare a b with Gt => false | _ => true end.

Definition dt_le (a b : datetime) : Prop := dt_leb a b = true.

(** [dt.replace(day=1)]: day 1 is valid in every month. *)
Definition replace_day1 (d : datetime) : datetime :=
  DateTime (year d) (month d) 1 (hour d) (minute d) (second d) (microsecond d).

(** [dt + relativedelta(months=1)]: the month moves on by one, the day is
    clipped to the new month's length, and the [replace] that builds the
    result checks the date. *)
Definition add_one_month (d : datetime) : exn + datetime :=
  let m1 := month d + 1 in
  let '(y, m) := if m1 >? 12 then (year d + 1, m1 - 12) else (year d, m1) in
  let dd := Z.min (monthrange_ndays y m) (day d) in
  match check_date y m dd with
  | Some e => inl e
  | None => inr (DateTime y m dd (hour d) (minute d) (second d) (microsecond d))
  end.

(** [dt.strftime("%Y%m%d_%H%M%S")]. [%Y] is the year as glibc prints it,
    with no zero fill: year 999 gives [999]. C libraries that fill the year
    to four digits print the same text from year 1000 on. *)
Definition strftime_tag (d : datetime) : string :=
  decimal (year d) +:+ zfill 2 (month d) +:+ zfill 2 (day d) +:+ "_" +:+
  zfill 2 (hour d) +:+ zfill 2 (minute d) +:+ zfill 2 (second d).

(** [dt.strftime("%Y-%m")], with the same [%Y]. *)
Definition strftime_month (d : datetime) : string :=
  decimal (year d) +:+ "-" +:+ zfill 2 (month d).

(** The month directive of [strptime]: the first alternative of
    [1[0-2]|0[1-9]|[1-9]] that matches, and nothing may follow it. *)
Definition parse_month_field (s : string) : option Z :=
  match s with
  | String a (String b EmptyString) =>
      if ascii_eqb a "1" && between 48 50 (code b) then Some (10 + digit_val b)
      else if ascii_eqb a "0" && between 49 57 (code b) then Some (digit_val b)
      else None
  | String a EmptyString =>
      if between 49 57 (code a) then Some (digit_val a) else None
  | _ => None
  end.

(** [datetime.strptime(month_str, "%Y-%m").replace(tzinfo=timezone.utc)];
    [None] stands for the [ValueError] of a string that does not parse. *)
Definition parse_month (month_str : string) : option datetime :=
  match month_str with
  | String a (String b (String c (String d (String sep rest)))) =>
      if is_digit a && is_digit b && is_digit c && is_digit d
         && ascii_eqb sep "-"
      then
        let y := 1000 * digit_val a + 100 * digit_val b
                 + 10 * digit_val c + digit_val d in
        match parse_month_field rest with
        | Some m =>
            match check_date y m 1 with
            | None => Some (DateTime y m 1 0 0 0 0)
            | Some _ => None
            end
        | None => None
        end
      else None
  | _ => None
  end.

(** ** Month range planner *)

(** How a generator stops: it returns, it raises, or the model's fuel is
    spent. *)
Inductive gen_end := GenDone | GenRaised (e : exn) | GenFuel.

Fixpoint month_range_loop (fuel : nat) (cur end_norm : datetime)
  : list datetime * gen_end :=
  match fuel with
  | O => ([], GenFuel)
  | S f =>
      if dt_leb cur end_norm then
        match add_one_month cur with
        | inl e => ([cur], GenRaised e)
        | inr next =>
            let '(ys, fin) := month_range_loop f next end_norm in
            (cur :: ys, fin)
        end
      else ([], GenDone)
  end.

(** Position of a datetime's month on the month line. *)
Definition month_index (d : datetime) : Z := 12 * year d + (month d - 1).

(** The values yielded by the generator, and how it stops. *)
Definition month_range (start_month_dt end_month_dt : datetime)
  : list datetime * gen_end :=
  let cur := replace_day1 start_month_dt in
  let end_norm := replace_day1 end_month_dt in
  month_range_loop (S (Z.to_nat (month_index end_norm - month_index cur + 1)))
    cur end_norm.

Definition month_bounds (month_dt : datetime) : datetime * datetime :=
  let first := DateTime (year month_dt) (month month_dt) 1 0 0 0 0 in
  let last_day := monthrange_ndays (year first) (month first) in
  let last := DateTime (year first) (month first) last_day 23 59 59
                (microsecond first) in
  (first, last).


(** ** Assets *)

(** What [asset.download()] hands back: a [requests.Response] whose
    [iter_content] produces [chunks] and then either ends or raises
    [failure]; a byte buffer; or an object that is neither (its type name
    is kept for the [TypeError] text). *)
Inductive response :=
| Streamed (chunks : list (list byte)) (failure : option exn)
| RawBytes (data : list byte)
| NotBytes (tyname : string).

Inductive outcome :=
| Raises (e : exn)
| Returns (resp : response).

Record asset := Asset {
  asset_id : string;
  filename : option string;
  item_type : string;
  created : option datetime;
  download : nat -> outcome
}.

(** [x or alt] for an optional string: [None] and the empty string are
    falsy. *)
Definition str_or (x : option string) (alt : string) : string :=
  match x with
  | Some (String _ _ as s) => s
  | _ => alt
  end.

Definition is_video (a : asset) : bool := String.eqb (item_type a) "video".

Definition asset_timestamp (a : asset) : option datetime :=
  match created a with
  | Some dt => Some dt
  | None => None
  end.

Definition is_in_month (a : asset) (start_dt end_dt : datetime) : bool :=
  match asset_timestamp a with
  | None => false
  | Some ts => dt_leb start_dt ts && dt_leb ts end_dt
  end.

(** The comprehension of [main]:
    [[a for a in photos if is_in_month(a, mstart, mend)]]. *)
Definition matched (photos : list asset) (mstart mend : datetime) : list asset :=
  List.filter (fun a => is_in_month a mstart mend) photos.

(** ** Filename deriver *)

(** The nine characters of the raw string literal in [safe_filename]; the
    fourth is the double quote, character 34. *)
Definition reserved : string := "<>:" +:+ String (chr 34) "/\|?*".

Definition safe_filename (name : string) : string :=
  strip (join_filter (fun c => negb (char_in c reserved)) name).

Definition file_ext (a : asset) : string :=
  let name := lower (str_or (filename a) "") in
  if char_in "." name then "." +:+ last_part (split "." name)
  else if is_video a then ".mov"
  else ".jpg".

Definition build_filename (a : asset) : string :=
  let ts := asset_timestamp a in
  let base_time :=
    match ts with Some t => strftime_tag t | None => "unknown" end in
  let base := base_time +:+ "_" +:+ str_or (filename a) (asset_id a) in
  safe_filename base.

(** ** The world the downloader acts on *)

Inductive event :=
| EvDownload
| EvSleep (seconds : Q).

Record world := World {
  fs : gmap string (list byte);
  calls : nat;
  log : list event
}.

(** [os.path.exists(p) and os.path.getsize(p) > 0] *)
Definition exists_nonempty (files : gmap string (list byte)) (p : string) : bool :=
  match files !! p with
  | Some data => (0 <? length data)%nat
  | None => false
  end.

Definition starts_with_slash (s : string) : bool :=
  match s with
  | String c _ => ascii_eqb c "/"
  | EmptyString => false
  end.

Fixpoint ends_with_slash (s : string) : bool :=
  match s with
  | EmptyString => false
  | String c EmptyString => ascii_eqb c "/"
  | String _ r => ends_with_slash r
  end.

(** [os.path.join(a, b)] of [posixpath]. *)
Definition path_join (a b : string) : string :=
  if starts_with_slash b then b
  else if String.eqb a "" || ends_with_slash a then a +:+ b
  else a +:+ "/" +:+ b.

(** The file as the loop over [iter_content] leaves it: empty chunks are
    passed over, the others appended. *)
Fixpoint write_chunks (chunks : list (list byte)) (f : list byte) : list byte :=
  match chunks with
  | [] => f
  | chunk :: rest =>
      write_chunks rest (match chunk with [] => f | _ => f ++ chunk end)
  end.

(** [open(target_path, "wb")] creates or truncates the file; the [with]
    block closes it on every exit, so what was written stays. Returns the
    exception that escapes, if any, and the file system afterwards. The
    directory of [target_path] is taken to exist: an [open] that fails
    for a missing directory is outside this model. *)
Definition save_stream_to_file (resp : response) (target_path : string)
    (files : gmap string (list byte)) : option exn * gmap string (list byte) :=
  match resp with
  | Streamed chunks failure =>
      (failure, <[target_path := write_chunks chunks []]> files)
  | RawBytes data => (None, <[target_path := data]> files)
  | NotBytes tyname =>
      (Some (Exn "TypeError"
               ("a bytes-like object is required, not '" +:+ tyname +:+ "'")),
       <[target_path := []]> files)
  end.

(** [1.5 * attempt] *)
Definition backoff (attempt : Z) : Q := Qmult (3 # 2) (inject_Z attempt).

Definition sleep (seconds : Q) (w : world) : world :=
  World (fs w) (calls w) (log w ++ [EvSleep seconds]).

(** The body of the [try]: one call of the download capability and the
    save. [None] when it completes, the exception caught otherwise. *)
Definition fetch_and_save (a : asset) (target_path : string) (w : world)
  : option exn * world :=
  let w1 := World (fs w) (S (calls w)) (log w ++ [EvDownload]) in
  match download a (calls w) with
  | Raises e => (Some e, w1)
  | Returns resp =>
      let '(r, files) := save_stream_to_file resp target_path (fs w1) in
      (r, World files (calls w1) (log w1))
  end.

(** [f"{type(last_err).__name__}: {last_err}"] *)
Definition error_message (last_err : option exn) : string :=
  match last_err with
  | Some e => exn_type e +:+ ": " +:+ exn_text e
  | None => "NoneType: None"
  end.

(** The pair a call returns: path, message or [None], and the status. *)
Definition result : Type := option string * string.

(** The [while attempt < max_retries] loop; [None] when the fuel of the
    model is spent. An [exn] is an exception of class [Exception], which
    the handler catches; [KeyboardInterrupt] and [SystemExit], which it
    lets through, are outside this model. *)
Fixpoint retry_loop (fuel : nat) (a : asset) (target_path : string)
    (max_retries attempt : Z) (last_err : option exn) (w : world)
  : option (result * world) :=
  match fuel with
  | O => None
  | S f =>
      if attempt <? max_retries then
        match fetch_and_save a target_path w with
        | (None, w') => Some ((Some target_path, "ok"), w')
        | (Some e, w') =>
            let attempt' := attempt + 1 in
            retry_loop f a target_path max_retries attempt' (Some e)
              (sleep (backoff attempt') w')
        end
      else Some ((Some (error_message last_err), "error"), w)
  end.

Definition target_path_of (a : asset) (out_dir : string) : string :=
  let target_name := build_filename a +:+ file_ext a in
  path_join out_dir target_name.

Section Downloader.

(** The module-level configuration flag. *)
Variable SKIP_VIDEOS : bool.

Definition download_asset (a : asset) (out_dir : string) (max_retries : Z)
    (w : world) : option (result * world) :=
  if SKIP_VIDEOS && is_video a then Some ((None, "skipped_video"), w)
  else
    let target_path := target_path_of a out_dir in
    if exists_nonempty (fs w) target_path then
      Some ((Some target_path, "skip"), w)
    else
      retry_loop (S (Z.to_nat max_retries)) a target_path max_retries 0
        None w.

End Downloader.


(** The events of attempts [att+1 .. att+n] when each one fails. *)
Fixpoint failed_attempts (n : nat) (att : Z) : list event :=
  match n with
  | O => []
  | S k => EvDownload :: EvSleep (backoff (att + 1)) :: failed_attempts k (att + 1)
  end.


(** An attempt that leaves no byte in the target file: the download call
    raises, or what it returns is written as an empty file. *)
Definition writes_nothing (o : outcome) : bool :=
  match o with
  | Raises _ => true
  | Returns (Streamed chunks _) =>
      match write_chunks chunks [] with [] => true | _ => false end
  | Returns (RawBytes data) => match data with [] => true | _ => false end
  | Returns (NotBytes _) => true
  end.

(** ** Sample inputs *)

Definition w0 : world := World ∅ 0 [].

Definition jan5 : datetime := DateTime 2026 1 5 10 20 30 0.

(** A photo whose stream breaks after its first chunk, every time. *)
Definition broken_stream : asset :=
  Asset "A1" (Some "IMG_0001.JPG") "image" (Some jan5)
    (fun _ => Returns (Streamed [["x"%byte]]
                         (Some (Exn "ChunkedEncodingError" "Connection broken")))).

(** A photo whose download call raises, every time. *)
Definition always_raises : asset :=
  Asset "A2" (Some "IMG_0002.JPG") "image" (Some jan5)
    (fun _ => Raises (Exn "ConnectionError" "timed out")).

Definition clip : asset :=
  Asset "V1" (Some "clip.mov") "video" (Some jan5)
    (fun _ => Returns (RawBytes ["v"%byte])).

(** ** The filename rules in the words of the specification *)

Definition two_digits (n : Z) : string :=
  String (digit_char (n / 10)) (String (digit_char (n mod 10)) EmptyString).

Definition four_digits (n : Z) : string :=
  String (digit_char (n / 1000))
    (String (digit_char (n / 100 mod 10)) (two_digits (n mod 100))).






(** The asset of the sanitization example. *)
Definition my_file : asset :=
  Asset "A3" (Some "My:File*Name?.JPG") "image" (Some jan5)
    (fun _ => Returns (RawBytes ["p"%byte])).

(** ** The month filter in the words of the specification *)

(** An asset matches when it has a creation timestamp [t] with
    [first <= t <= last]. *)
Definition in_month_spec (first last : datetime) (a : asset) : Prop :=
  exists t, created a = Some t /\ dt_le first t /\ dt_le t last.

#[global] Instance in_month_spec_dec first last a :
  Decision (in_month_spec first last a).
Proof.
  unfold in_month_spec, dt_le.
  destruct (created a) as [t|].
  - destruct (dt_leb first t) eqn:H1; [destruct (dt_leb t last) eqn:H2|].
    + left. exists t. auto.
    + right. intros (t' & [= <-] & _ & H). congruence.
    + right. intros (t' & [= <-] & H & _). congruence.
  - right. intros (t' & H & _). discriminate.
Defined.

(** ** The calendar in the words of the specification *)

(** Days in the whole years before year [y'] of the proleptic Gregorian
    calendar, by 400-year eras of 146097 days. *)
Definition year_part (y' : Z) : Z :=
  let era := y' / 400 in
  let yoe := y' mod 400 in
  era * 146097 + yoe * 365 + yoe / 4 - yoe / 100.

(** Days from 1 March to the first of month [m]. *)
Definition doy_offset (m : Z) : Z := (153 * ((m + 9) mod 12) + 2) / 5.

(** Day number of a civil date, counted from 1970-01-01, with the year
    taken to start in March. *)
Definition day_number (y m d : Z) : Z :=
  let y' := if m <=? 2 then y - 1 else y in
  year_part y' + doy_offset m + (d - 1) - 719468.

(** Year and month of the month after [(y, m)]. *)
Definition next_month (y m : Z) : Z * Z :=
  if m =? 12 then (y + 1, 1) else (y, m + 1).

(** [d] is the last calendar day of month [m] of year [y]: the day after
    it is the first of the next month. *)
Definition is_last_day_of_month (y m d : Z) : Prop :=
  let '(y', m') := next_month y m in
  day_number y m d + 1 = day_number y' m' 1.

(** ** The month sequence in the words of the specification *)

Definition first_of_month (y m : Z) : datetime := DateTime y m 1 0 0 0 0.

(** The first-of-month instant at position [k] of the month line. *)
Definition month_at (k : Z) : datetime := first_of_month (k / 12) (k mod 12 + 1).

(** [count] successive first-of-month instants from position [from]; none
    when [count] is not positive. *)
Definition month_starts (from count : Z) : list datetime :=
  map month_at (seqZ from count).

(** Position of December 9999, the last month a [datetime] can name. *)
Definition last_month_index : Z := 12 * MAXYEAR + 11.

Definition year_overflow : exn := Exn "ValueError" "year 10000 is out of range".

(** ** Proof automation *)

(** Case analysis on a month number known to lie in 1..12. *)
Ltac month_cases m :=
  assert (m = 1 \/ m = 2 \/ m = 3 \/ m = 4 \/ m = 5 \/ m = 6 \/ m = 7
          \/ m = 8 \/ m = 9 \/ m = 10 \/ m = 11 \/ m = 12) as Hmonth by lia;
  repeat (destruct Hmonth as [Hmonth|Hmonth]; [subst m|]); [..|subst m].

(** Replace a closed term by its value. *)
Ltac eval_closed t := let v := eval vm_compute in t in change t with v.


(** ** The download loop of [main] *)

Definition SLEEP_BETWEEN_DOWNLOADS : Q := 3 # 10.

(** The inner [for asset in matched] loop: each asset is downloaded with
    the default [max_retries=3]; a pause follows an ["ok"], an ["error"] is
    printed, and the loop goes on to the next asset either way. Returns the
    [(path, status)] pairs in order. Every download capability is asked
    at the world's running count of calls. *)
Fixpoint download_matched (skip : bool) (assets : list asset)
    (out_dir : string) (w : world) : option (list result * world) :=
  match assets with
  | [] => Some ([], w)
  | a :: rest =>
      match download_asset skip a out_dir 3 w with
      | None => None
      | Some ((path, status), w1) =>
          let w2 := if String.eqb status "ok"
                    then sleep SLEEP_BETWEEN_DOWNLOADS w1 else w1 in
          match download_matched skip rest out_dir w2 with
          | None => None
          | Some (rs, w3) => Some ((path, status) :: rs, w3)
          end
      end
  end.

(** The lines [print("Error:", path)] writes for a list of results. *)
Definition error_lines (rs : list result) : list string :=
  omap (fun r : result =>
          if String.eqb (snd r) "error"
          then Some ("Error: " +:+ default "None" (fst r)) else None) rs.

(** Seconds slept in an event log. *)
Fixpoint sleep_total (evs : list event) : Q :=
  match evs with
  | [] => 0%Q
  | EvSleep s :: rest => Qplus s (sleep_total rest)
  | EvDownload :: rest => sleep_total rest
  end.

(** The first character of the time tag: a digit, or the [u] of
    [unknown]. *)
Definition tag_start (c : ascii) : Prop :=
  (exists k, 0 <= k < 10 /\ c = digit_char k) \/ c = "u"%char.
(** * Properties of the downloader *)

Lemma retry_loop_total fuel a tp mr att le w :
  (Z.to_nat (mr - att) < fuel)%nat ->
  is_Some (retry_loop fuel a tp mr att le w).
Proof.
  revert att le w. induction fuel as [|fuel IH]; intros att le w Hf; [lia|].
  simpl. destruct (att <? mr) eqn:Hlt; [|eauto].
  destruct (fetch_and_save a tp w) as [[e|] w']; [|eauto].
  apply IH. apply Z.ltb_lt in Hlt. lia.
Qed.

(** Every call of [download_asset] returns. *)
Lemma download_asset_total skip a out_dir mr w :
  is_Some (download_asset skip a out_dir mr w).
Proof.
  unfold download_asset.
  destruct (skip && is_video a); [eauto|].
  destruct (exists_nonempty _ _); [eauto|].
  apply retry_loop_total. lia.
Qed.

Lemma fetch_and_save_calls a tp w r w' :
  fetch_and_save a tp w = (r, w') -> calls w' = S (calls w).
Proof.
  unfold fetch_and_save. destruct (download a (calls w)) as [e|resp].
  - intros [= _ <-]. reflexivity.
  - destruct (save_stream_to_file _ _ _) as [r0 files]. intros [= _ <-].
    reflexivity.
Qed.

Lemma fetch_and_save_raises a tp w e :
  download a (calls w) = Raises e ->
  fetch_and_save a tp w
  = (Some e, World (fs w) (S (calls w)) (log w ++ [EvDownload])).
Proof. unfold fetch_and_save. intros ->. reflexivity. Qed.

Lemma retry_loop_all_raise (err : nat -> exn) a tp :
  (forall k, download a k = Raises (err k)) ->
  forall n fuel att le w,
    (n < fuel)%nat ->
    retry_loop fuel a tp (att + Z.of_nat n) att le w
    = Some ((Some (error_message
                     (match n with
                      | O => le
                      | S k => Some (err (calls w + k)%nat)
                      end)), "error"),
            World (fs w) (calls w + n) (log w ++ failed_attempts n att)).
Proof.
  intros Herr. induction n as [|n IH]; intros fuel att le w Hf.
  - destruct fuel as [|fuel]; [lia|]. simpl.
    destruct (Z.ltb_spec att (att + Z.of_nat 0)) as [?|_]; [lia|].
    destruct w as [f c l]. simpl. rewrite Nat.add_0_r, app_nil_r. reflexivity.
  - destruct fuel as [|fuel]; [lia|]. simpl retry_loop.
    destruct (Z.ltb_spec att (att + Z.of_nat (S n))) as [_|?]; [|lia].
    rewrite (fetch_and_save_raises _ _ _ _ (Herr (calls w))).
    replace (att + Z.of_nat (S n)) with ((att + 1) + Z.of_nat n) by lia.
    rewrite IH by lia. simpl.
    replace (S (calls w + n)) with (calls w + S n)%nat by lia.
    rewrite <- !app_assoc. simpl.
    destruct n as [|k]; [rewrite Nat.add_0_r; reflexivity|].
    replace (S (calls w + k)) with (calls w + S k)%nat by lia. reflexivity.
Qed.

Lemma retry_loop_status fuel a tp mr att le w r w' :
  retry_loop fuel a tp mr att le w = Some (r, w') ->
  snd r = "ok" \/ snd r = "error".
Proof.
  revert att le w. induction fuel as [|fuel IH]; intros att le w; [discriminate|].
  simpl. destruct (att <? mr).
  - destruct (fetch_and_save a tp w) as [[e|] w1].
    + apply IH.
    + intros [= <- _]. left. reflexivity.
  - intros [= <- _]. right. reflexivity.
Qed.

Lemma retry_loop_calls_mono fuel a tp mr att le w r w' :
  retry_loop fuel a tp mr att le w = Some (r, w') ->
  (calls w <= calls w')%nat.
Proof.
  revert att le w. induction fuel as [|fuel IH]; intros att le w; [discriminate|].
  simpl. destruct (att <? mr).
  - destruct (fetch_and_save a tp w) as [[e|] w1] eqn:Hfs;
      apply fetch_and_save_calls in Hfs.
    + intros H. apply IH in H. simpl in H. lia.
    + intros [= _ <-]. lia.
  - intros [= _ <-]. lia.
Qed.

Lemma fetch_and_save_nothing a tp w r w' :
  writes_nothing (download a (calls w)) = true ->
  exists_nonempty (fs w) tp = false ->
  fetch_and_save a tp w = (r, w') ->
  exists_nonempty (fs w') tp = false.
Proof.
  unfold fetch_and_save, exists_nonempty.
  destruct (download a (calls w)) as [e|[chunks failure|data|ty]]; simpl;
    intros Hn Hw [= _ <-]; simpl; rewrite ?lookup_insert_eq; try done.
  - destruct (write_chunks chunks []); done.
  - destruct data; done.
Qed.

Lemma retry_loop_error_no_bytes fuel a tp mr att le w msg w1 :
  retry_loop fuel a tp mr att le w = Some ((msg, "error"), w1) ->
  exists_nonempty (fs w) tp = false ->
  (forall k, (calls w <= k < calls w1)%nat ->
             writes_nothing (download a k) = true) ->
  exists_nonempty (fs w1) tp = false.
Proof.
  revert att le w. induction fuel as [|fuel IH]; intros att le w; [discriminate|].
  simpl. destruct (att <? mr).
  - destruct (fetch_and_save a tp w) as [[e|] w'] eqn:Hfs.
    + intros Hloop Hw Hall.
      pose proof (fetch_and_save_calls _ _ _ _ _ Hfs) as Hc.
      pose proof (retry_loop_calls_mono _ _ _ _ _ _ _ _ _ Hloop) as Hm.
      simpl in Hm.
      apply (IH _ _ _ Hloop); simpl.
      * apply (fetch_and_save_nothing _ _ _ _ _ (Hall (calls w) ltac:(lia)) Hw Hfs).
      * intros k Hk. apply Hall. lia.
    + discriminate.
  - intros [= _ <-] Hw _. exact Hw.
Qed.

(** ** C9: videos are skipped when the flag is set *)

(** C9. With the skip-videos flag set, [download_asset] on an asset of kind
    video returns [(None, "skipped_video")] at once: the world it returns is
    the world it was given, so no file is touched and the download
    capability is not invoked. *)
Theorem download_asset_skipped_video a out_dir max_retries w :
  is_video a = true ->
  download_asset true a out_dir max_retries w
  = Some ((None, "skipped_video"), w).
Proof. unfold download_asset. intros ->. reflexivity. Qed.

Lemma download_asset_skipped_video_witness :
  download_asset true clip "/out/2026-01" 3 w0
  = Some ((None, "skipped_video"), w0).
Proof. apply download_asset_skipped_video. reflexivity. Defined.

(** ** C2: an existing non-empty target is skipped *)

(** C2. For an asset that is not skipped as a video, when the file system
    holds a file of more than 0 bytes at the target path (the output
    directory joined with the derived filename plus extension),
    [download_asset] returns that path with status ["skip"] and the world
    unchanged: the count of download invocations and the event log are
    those it started from. *)
Theorem download_asset_skip_existing skip a out_dir max_retries w data :
  skip && is_video a = false ->
  fs w !! path_join out_dir (build_filename a +:+ file_ext a) = Some data ->
  (0 < length data)%nat ->
  download_asset skip a out_dir max_retries w
  = Some ((Some (path_join out_dir (build_filename a +:+ file_ext a)), "skip"),
          w).
Proof.
  intros Hv Hf Hlen. unfold download_asset, target_path_of, exists_nonempty.
  rewrite Hv, Hf. destruct (Nat.ltb_spec 0 (length data)); [reflexivity|lia].
Qed.

Lemma download_asset_skip_existing_witness :
  let path := "/out/20260105_102030_IMG_0002.JPG.jpg" in
  let w := World {[ path := ["x"%byte] ]} 0 [] in
  download_asset false always_raises "/out" 3 w = Some ((Some path, "skip"), w).
Proof.
  intros path w.
  apply (download_asset_skip_existing false always_raises "/out" 3 w ["x"%byte]).
  - reflexivity.
  - vm_compute. reflexivity.
  - simpl. lia.
Defined.

(** ** C10: a non-positive retry bound *)

(** C10. For an asset that is not skipped as a video and whose target is not
    an existing non-empty file, a call with [max_retries <= 0] makes no
    download attempt and no sleep (the world is returned as it was) and
    returns [("NoneType: None", "error")]: the message is built from the
    null last error. *)
Theorem download_asset_no_attempts skip a out_dir max_retries w :
  skip && is_video a = false ->
  exists_nonempty (fs w) (target_path_of a out_dir) = false ->
  max_retries <= 0 ->
  download_asset skip a out_dir max_retries w
  = Some ((Some "NoneType: None", "error"), w).
Proof.
  intros Hv He Hm. unfold download_asset. rewrite Hv, He. simpl.
  destruct (Z.ltb_spec 0 max_retries); [lia|reflexivity].
Qed.

Lemma download_asset_no_attempts_witness :
  download_asset false always_raises "/out" 0 w0
  = Some ((Some "NoneType: None", "error"), w0).
Proof.
  apply download_asset_no_attempts; [reflexivity|reflexivity|lia].
Defined.

(** ** C3: retry exhaustion *)

(** C3. For an asset that is not skipped (neither as a video nor because its
    target exists) and whose download capability raises on every
    invocation, [download_asset] with [max_retries = 3] invokes the
    download exactly three times, sleeps [1.5 * attempt] seconds after each
    failure (1.5, 3.0 and 4.5 seconds, 9 in all), touches no file, and
    returns status ["error"] with the message made of the type name and the
    text of the last error raised. *)
Theorem download_asset_retries_exhausted skip a out_dir w (err : nat -> exn) :
  skip && is_video a = false ->
  exists_nonempty (fs w) (target_path_of a out_dir) = false ->
  (forall k, download a k = Raises (err k)) ->
  let last := err (calls w + 2)%nat in
  download_asset skip a out_dir 3 w
  = Some ((Some (exn_type last +:+ ": " +:+ exn_text last), "error"),
          World (fs w) (calls w + 3)
            (log w ++ [EvDownload; EvSleep (backoff 1);
                       EvDownload; EvSleep (backoff 2);
                       EvDownload; EvSleep (backoff 3)]))
  /\ (backoff 1 == 3 # 2)%Q /\ (backoff 2 == 3)%Q /\ (backoff 3 == 9 # 2)%Q
  /\ (backoff 1 + backoff 2 + backoff 3 == 9)%Q.
Proof.
  intros Hv He Herr last. split; [|repeat split; reflexivity].
  unfold download_asset. rewrite Hv, He. simpl orb. cbv iota.
  change 3 with (0 + Z.of_nat 3) at 2.
  rewrite (retry_loop_all_raise err a _ Herr 3) by (simpl; lia).
  reflexivity.
Qed.

Lemma download_asset_retries_exhausted_witness :
  download_asset false always_raises "/out" 3 w0
  = Some ((Some "ConnectionError: timed out", "error"),
          World ∅ 3 [EvDownload; EvSleep (backoff 1);
                     EvDownload; EvSleep (backoff 2);
                     EvDownload; EvSleep (backoff 3)]).
Proof.
  apply (download_asset_retries_exhausted false always_raises "/out" w0
           (fun _ => Exn "ConnectionError" "timed out"));
    [reflexivity | reflexivity | intros k; reflexivity].
Defined.

(** ** C1: what a failed download leaves behind *)

(** C1, as stated, fails: a stream that breaks after its first chunk makes
    the call end with status ["error"] after three attempts and leaves the
    chunk in the target file; the next call finds a non-empty file there
    and returns ["skip"], though no download ever completed. *)
Lemma partial_file_skipped_after_error :
  let path := "/out/20260105_102030_IMG_0001.JPG.jpg" in
  let w1 := World {[ path := ["x"%byte] ]} 3
              [EvDownload; EvSleep (backoff 1);
               EvDownload; EvSleep (backoff 2);
               EvDownload; EvSleep (backoff 3)] in
  download_asset false broken_stream "/out" 3 w0
  = Some ((Some "ChunkedEncodingError: Connection broken", "error"), w1)
  /\ exists_nonempty (fs w1) path = true
  /\ download_asset false broken_stream "/out" 3 w1
     = Some ((Some path, "skip"), w1).
Proof. vm_compute. repeat split; reflexivity. Qed.

(** C1, amended. When [download_asset] returns status ["error"] and none of
    the attempts it made left a byte in the target file (the download call
    raised, or what it returned was written as an empty file), the target
    is not a non-empty file afterwards, and a following call on the same
    asset and output directory never returns ["skip"]. *)
Theorem download_asset_error_leaves_no_file skip a out_dir max_retries w msg w1 :
  download_asset skip a out_dir max_retries w = Some ((msg, "error"), w1) ->
  (forall k, (calls w <= k < calls w1)%nat ->
             writes_nothing (download a k) = true) ->
  exists_nonempty (fs w1) (target_path_of a out_dir) = false
  /\ forall max_retries' r w2,
       download_asset skip a out_dir max_retries' w1 = Some (r, w2) ->
       snd r <> "skip".
Proof.
  intros Hrun Hall.
  assert (Hnone : exists_nonempty (fs w1) (target_path_of a out_dir) = false).
  { unfold download_asset in Hrun.
    destruct (skip && is_video a); [discriminate|].
    destruct (exists_nonempty (fs w) _) eqn:He; [discriminate|].
    eapply retry_loop_error_no_bytes; eauto. }
  split; [exact Hnone|].
  intros mr' r w2. unfold download_asset.
  destruct (skip && is_video a).
  - intros [= <- _]. discriminate.
  - rewrite Hnone. intros Hloop.
    destruct (retry_loop_status _ _ _ _ _ _ _ _ _ Hloop) as [-> | ->];
      discriminate.
Qed.

Lemma download_asset_error_leaves_no_file_witness :
  let w1 := World ∅ 3 [EvDownload; EvSleep (backoff 1);
                       EvDownload; EvSleep (backoff 2);
                       EvDownload; EvSleep (backoff 3)] in
  exists_nonempty (fs w1) (target_path_of always_raises "/out") = false
  /\ forall max_retries' r w2,
       download_asset false always_raises "/out" max_retries' w1 = Some (r, w2) ->
       snd r <> "skip".
Proof.
  intros w1.
  apply (download_asset_error_leaves_no_file false always_raises "/out" 3 w0
           (Some "ConnectionError: timed out") w1).
  - reflexivity.
  - intros k _. reflexivity.
Defined.

(** * Properties of the filename deriver *)

Lemma Z_range_check (P : Z -> bool) (lo n : Z) :
  forallb P (seqZ lo n) = true ->
  forall x, lo <= x < lo + n -> P x = true.
Proof.
  intros Hall x Hx. rewrite forallb_forall in Hall. apply Hall.
  apply list_elem_of_In, elem_of_seqZ. lia.
Qed.

Lemma zfill2_two_digits n : 0 <= n <= 99 -> zfill 2 n = two_digits n.
Proof.
  intros Hn.
  apply String.eqb_eq.
  apply (Z_range_check (fun k => String.eqb (zfill 2 k) (two_digits k)) 0 100);
    [vm_compute; reflexivity | lia].
Qed.

Lemma decimal_four_digits n : 1000 <= n <= 9999 -> decimal n = four_digits n.
Proof.
  intros Hn.
  apply String.eqb_eq.
  apply (Z_range_check (fun k => String.eqb (decimal k) (four_digits k)) 1000 9000);
    [vm_compute; reflexivity | lia].
Qed.

Lemma between_true lo hi n : between lo hi n = true <-> lo <= n <= hi.
Proof. unfold between. rewrite andb_true_iff, !Z.leb_le. reflexivity. Qed.

Lemma check_date_ok y m d :
  check_date y m d = None <->
  1 <= y <= 9999 /\ 1 <= m <= 12 /\ 1 <= d <= monthrange_ndays y m.
Proof.
  unfold check_date, MINYEAR, MAXYEAR.
  destruct (between 1 9999 y) eqn:Hy; simpl;
    [apply between_true in Hy|apply not_true_iff_false in Hy;
                              rewrite between_true in Hy].
  2: { split; [discriminate|lia]. }
  destruct (between 1 12 m) eqn:Hm; simpl;
    [apply between_true in Hm|apply not_true_iff_false in Hm;
                              rewrite between_true in Hm].
  2: { split; [discriminate|lia]. }
  destruct (between 1 (monthrange_ndays y m) d) eqn:Hd; simpl;
    [apply between_true in Hd|apply not_true_iff_false in Hd;
                              rewrite between_true in Hd].
  - split; [lia|reflexivity].
  - split; [discriminate|lia].
Qed.

Lemma monthrange_ndays_bounds y m :
  1 <= m <= 12 -> 28 <= monthrange_ndays y m <= 31.
Proof.
  intros Hm. unfold monthrange_ndays.
  month_cases m; simpl; try lia. destruct (isleap y); lia.
Qed.


Lemma ascii_eqb_sym a b : ascii_eqb a b = ascii_eqb b a.
Proof. unfold ascii_eqb. apply bool_decide_ext. split; congruence. Qed.

Lemma ascii_eqb_true a b : ascii_eqb a b = true <-> a = b.
Proof. unfold ascii_eqb. apply bool_decide_eq_true. Qed.

Lemma lower_char_dot c : ascii_eqb (lower_char c) "." = ascii_eqb c ".".
Proof. destruct c as [[] [] [] [] [] [] [] []]; reflexivity. Qed.


Lemma split_nonempty sep s : split sep s <> [].
Proof.
  destruct s as [|c r]; simpl; [discriminate|].
  destruct (ascii_eqb c sep); [discriminate|].
  destruct (split sep r); discriminate.
Qed.

Lemma split_dot_lower s : split "." (lower s) = map lower (split "." s).
Proof.
  induction s as [|c r IH]; [reflexivity|]. simpl.
  rewrite lower_char_dot, IH.
  destruct (ascii_eqb c "."); [reflexivity|].
  destruct (split "." r); reflexivity.
Qed.

Lemma last_part_lower parts :
  last_part (map lower parts) = lower (last_part parts).
Proof.
  unfold last_part. induction parts as [|p [|q ps] IH]; try reflexivity.
  exact IH.
Qed.


Lemma last_part_cons p parts :
  parts <> [] -> last_part (p :: parts) = last_part parts.
Proof. destruct parts; [congruence|reflexivity]. Qed.

Lemma split_with_dot s :
  char_in "." s = true -> exists p q qs, split "." s = p :: q :: qs.
Proof.
  induction s as [|c r IH]; [discriminate|]. simpl.
  rewrite (ascii_eqb_sym _ c). destruct (ascii_eqb c "."); simpl.
  - intros _. pose proof (split_nonempty "." r).
    destruct (split "." r) as [|q qs]; [congruence|]. eauto.
  - intros Hr. destruct (IH Hr) as (p & q & qs & ->). eauto.
Qed.




(** ** C5: base name and extension *)

(** Below year 1000 the time tag is shorter than [YYYYMMDD_HHMMSS]: the
    year is printed as it is. *)
Example strftime_tag_year_999 :
  strftime_tag (DateTime 999 3 4 5 6 7 0) = "9990304_050607".
Proof. reflexivity. Qed.



(** [safe_filename] lets no reserved character through, whatever the name. *)
Lemma char_in_join_filter keep c s :
  char_in c (join_filter keep s) = true -> keep c = true /\ char_in c s = true.
Proof.
  induction s as [|d r IH]; [discriminate|]. simpl.
  destruct (keep d) eqn:Hk; simpl.
  - destruct (ascii_eqb c d) eqn:Hcd; simpl.
    + apply ascii_eqb_true in Hcd as ->. auto.
    + intros H. apply IH in H as [? ?]. auto.
  - intros H. apply IH in H as [? ->]. rewrite orb_true_r. auto.
Qed.

Lemma char_in_lstrip c s : char_in c (lstrip s) = true -> char_in c s = true.
Proof.
  induction s as [|d r IH]; [discriminate|]. simpl.
  destruct (is_space d); [|exact (fun H => H)].
  intros H. rewrite (IH H). apply orb_true_r.
Qed.

Lemma char_in_rstrip c s : char_in c (rstrip s) = true -> char_in c s = true.
Proof.
  induction s as [|d r IH]; [discriminate|]. simpl.
  destruct (rstrip r) as [|e r'].
  - destruct (is_space d); [discriminate|]. simpl.
    rewrite orb_false_r. intros ->. reflexivity.
  - simpl in *. destruct (ascii_eqb c d); [reflexivity|]. simpl. exact IH.
Qed.

Lemma safe_filename_no_reserved name c :
  char_in c reserved = true -> char_in c (safe_filename name) = false.
Proof.
  intros Hc. destruct (char_in c (safe_filename name)) eqn:H; [|reflexivity].
  unfold safe_filename, strip in H.
  apply char_in_rstrip, char_in_lstrip, char_in_join_filter in H as [Hk _].
  rewrite Hc in Hk. discriminate.
Qed.

(** ** C4: the sanitization example *)

(** C4, as stated, fails: for the asset named [My:File*Name?.JPG] created at
    2026-01-05T10:20:30Z the target filename is not
    [20260105_102030_MyFileName.jpg]. *)
Lemma my_file_target_is_not_single_ext :
  build_filename my_file +:+ file_ext my_file
  <> "20260105_102030_MyFileName.jpg".
Proof. vm_compute. discriminate. Qed.

(** C4, amended. For an asset with original filename [My:File*Name?.JPG]
    and creation timestamp 2026-01-05T10:20:30Z, the sanitized base name
    keeps the original extension and the derived extension is appended to
    it: the target filename is [20260105_102030_MyFileName.JPG.jpg]. It
    holds no character of the reserved set and no surrounding whitespace. *)
Theorem my_file_target_name ident kind dl :
  let a := Asset ident (Some "My:File*Name?.JPG") kind (Some jan5) dl in
  let target_name := build_filename a +:+ file_ext a in
  build_filename a = "20260105_102030_MyFileName.JPG"
  /\ file_ext a = ".jpg"
  /\ target_name = "20260105_102030_MyFileName.JPG.jpg"
  /\ (forall c, char_in c reserved = true -> char_in c target_name = false)
  /\ strip target_name = target_name.
Proof.
  intros a target_name.
  assert (Hb : build_filename a = "20260105_102030_MyFileName.JPG")
    by (vm_compute; reflexivity).
  assert (He : file_ext a = ".jpg") by (vm_compute; reflexivity).
  subst target_name. rewrite Hb, He.
  split; [reflexivity|]. split; [reflexivity|]. split; [reflexivity|]. split.
  - intros c. destruct c as [[] [] [] [] [] [] [] []];
      vm_compute; congruence.
  - vm_compute. reflexivity.
Qed.

(** * Properties of the asset filter *)

Lemma is_in_month_spec a first last :
  is_in_month a first last = true <-> in_month_spec first last a.
Proof.
  unfold is_in_month, asset_timestamp, in_month_spec, dt_le.
  destruct (created a) as [t|].
  - rewrite andb_true_iff. split.
    + intros [H1 H2]. exists t. auto.
    + intros (t' & [= <-] & H1 & H2). auto.
  - split; [discriminate|]. intros (t' & H & _). discriminate.
Qed.

Lemma matched_filter photos first last :
  matched photos first last = filter (in_month_spec first last) photos.
Proof.
  unfold matched. induction photos as [|a l IH]; [reflexivity|].
  simpl. rewrite filter_cons, IH.
  destruct (is_in_month a first last) eqn:Hin.
  - apply is_in_month_spec in Hin. rewrite decide_True by assumption.
    reflexivity.
  - rewrite decide_False; [reflexivity|].
    intros H. apply is_in_month_spec in H. congruence.
Qed.

(** ** C6: the month filter *)

(** C6. For every list of assets and bounds [first], [last], the filter
    keeps exactly the assets that have a creation timestamp [t] with
    [first <= t <= last], both bounds included: the result is the input
    list with the other assets removed, so it keeps the order of the input,
    and an asset without a creation timestamp is never in it. *)
Theorem month_filter_exact (photos : list asset) (first last : datetime) :
  matched photos first last = filter (in_month_spec first last) photos
  /\ matched photos first last `sublist_of` photos
  /\ (forall a, a ∈ matched photos first last <->
                a ∈ photos /\
                exists t, created a = Some t /\ dt_le first t /\ dt_le t last)
  /\ (forall a, created a = None -> a ∉ matched photos first last).
Proof.
  rewrite matched_filter. split; [reflexivity|]. split; [apply sublist_filter|].
  split.
  - intros a. rewrite list_elem_of_filter. unfold in_month_spec. tauto.
  - intros a Hnone. rewrite list_elem_of_filter.
    intros [(t & Ht & _) _]. congruence.
Qed.

(** * Properties of the month planner *)

Lemma monthrange_last_day y m :
  1 <= m <= 12 -> is_last_day_of_month y m (monthrange_ndays y m).
Proof.
  intros Hm. unfold is_last_day_of_month, next_month.
  month_cases m;
    match goal with |- context [?a =? 12] => eval_closed (a =? 12) end;
    cbv beta iota zeta; unfold day_number, monthrange_ndays;
    repeat match goal with
           | |- context [?a <=? 2] => eval_closed (a <=? 2)
           | |- context [?a =? 2] => eval_closed (a =? 2)
           | |- context [doy_offset ?a] => eval_closed (doy_offset a)
           | |- context [nth ?a mdays 0] => eval_closed (nth a mdays 0)
           end;
    cbv beta iota zeta; simpl andb; cbv beta iota;
    unfold year_part, isleap.
  all: try replace (y + 1 - 1) with y by lia.
  all: try lia.
  destruct (Z.eqb_spec (y mod 4) 0), (Z.eqb_spec (y mod 100) 0),
    (Z.eqb_spec (y mod 400) 0); simpl; Z.div_mod_to_equations; lia.
Qed.

(** The day count is the usual one: 1970-01-01 is day 0, and the leap day
    of 2024 is the 28th day after 1 February. *)
Example day_number_samples :
  day_number 1970 1 1 = 0 /\ day_number 2000 3 1 = 11017
  /\ day_number 2024 2 29 = day_number 2024 2 1 + 28
  /\ day_number 2024 3 1 = day_number 2024 2 29 + 1.
Proof. repeat split; reflexivity. Qed.

(** Successive days have successive day numbers within a month, so a month
    has one last day only. *)
Lemma is_last_day_unique y m d d' :
  is_last_day_of_month y m d -> is_last_day_of_month y m d' -> d = d'.
Proof.
  unfold is_last_day_of_month, day_number. destruct (next_month y m). lia.
Qed.

(** ** C8: month bounds *)

(** C8. For every month, [month_bounds] returns the pair of that month's
    day 1 at 00:00:00 and that month's last calendar day at 23:59:59: the
    day after [last] is the first of the next month, and [last] passes the
    date check whenever the year does. February 2024 ends on day 29 and
    February 2023 on day 28. *)
Theorem month_bounds_first_last d :
  1 <= month d <= 12 ->
  let '(first, last) := month_bounds d in
  first = DateTime (year d) (month d) 1 0 0 0 0
  /\ last = DateTime (year d) (month d) (day last) 23 59 59 0
  /\ is_last_day_of_month (year d) (month d) (day last)
  /\ (1 <= year d <= 9999 ->
      check_date (year last) (month last) (day last) = None)
  /\ day (snd (month_bounds (DateTime 2024 2 1 0 0 0 0))) = 29
  /\ day (snd (month_bounds (DateTime 2023 2 1 0 0 0 0))) = 28.
Proof.
  intros Hm. unfold month_bounds. cbn [year month day microsecond snd].
  split; [reflexivity|]. split; [reflexivity|].
  split; [apply monthrange_last_day; assumption|].
  split; [|split; reflexivity].
  intros Hy. apply check_date_ok.
  pose proof (monthrange_ndays_bounds (year d) (month d) Hm). lia.
Qed.

Lemma month_bounds_first_last_witness :
  let '(first, last) := month_bounds (DateTime 2024 2 1 0 0 0 0) in
  first = DateTime 2024 2 1 0 0 0 0
  /\ last = DateTime 2024 2 (day last) 23 59 59 0
  /\ is_last_day_of_month 2024 2 (day last)
  /\ (1 <= 2024 <= 9999 ->
      check_date (year last) (month last) (day last) = None)
  /\ day (snd (month_bounds (DateTime 2024 2 1 0 0 0 0))) = 29
  /\ day (snd (month_bounds (DateTime 2023 2 1 0 0 0 0))) = 28.
Proof.
  apply (month_bounds_first_last (DateTime 2024 2 1 0 0 0 0)). simpl. lia.
Defined.

Lemma parse_month_some str d :
  parse_month str = Some d ->
  exists y m, d = first_of_month y m /\ 1 <= y <= 9999 /\ 1 <= m <= 12.
Proof.
  unfold parse_month.
  destruct str as [|a [|b [|c [|d' [|sep rest]]]]]; try discriminate.
  destruct (_ && _); [|discriminate].
  destruct (parse_month_field rest) as [m|]; [|discriminate].
  match goal with |- context [check_date ?y m 1] =>
    destruct (check_date y m 1) eqn:Hc; [discriminate|];
    apply check_date_ok in Hc; intros [= <-]; exists y, m
  end.
  split; [reflexivity|lia].
Qed.

Lemma month_at_index y m :
  1 <= m <= 12 -> month_at (month_index (first_of_month y m)) = first_of_month y m.
Proof.
  intros Hm. unfold month_at, month_index. cbn [year month first_of_month].
  f_equal; Z.div_mod_to_equations; lia.
Qed.

Lemma month_index_month_at k : month_index (month_at k) = k.
Proof.
  unfold month_at, month_index. cbn [year month first_of_month].
  Z.div_mod_to_equations; lia.
Qed.

Lemma dt_leb_month_at i j : dt_leb (month_at i) (month_at j) = (i <=? j).
Proof.
  unfold dt_leb, dt_compare, month_at, first_of_month.
  cbn [year month day hour minute second microsecond].
  destruct (Z.leb_spec i j);
    destruct (Z.compare_spec (i / 12) (j / 12));
    destruct (Z.compare_spec (i mod 12 + 1) (j mod 12 + 1));
    try reflexivity; exfalso; Z.div_mod_to_equations; lia.
Qed.

Lemma add_one_month_month_at i :
  12 <= i <= last_month_index ->
  add_one_month (month_at i)
  = if i <? last_month_index then inr (month_at (i + 1)) else inl year_overflow.
Proof.
  unfold last_month_index, MAXYEAR. change (12 * 9999 + 11) with 119999.
  intros Hi. unfold add_one_month, month_at, first_of_month.
  cbn [year month day hour minute second microsecond].
  set (y := i / 12). set (m := i mod 12).
  assert (Hdm : i = 12 * y + m /\ 0 <= m < 12)
    by (subst y m; Z.div_mod_to_equations; lia).
  destruct Hdm as [Hi12 Hm].
  assert (Hnext : (i + 1) / 12 = (if m + 1 + 1 >? 12 then y + 1 else y)
                  /\ (i + 1) mod 12 + 1
                     = (if m + 1 + 1 >? 12 then m + 1 + 1 - 12 else m + 1 + 1)).
  { destruct (Z.gtb_spec (m + 1 + 1) 12);
      Z.div_mod_to_equations; lia. }
  destruct Hnext as [-> ->].
  destruct (m + 1 + 1 >? 12) eqn:Hwrap.
  - apply Z.gtb_lt in Hwrap.
    replace (m + 1 + 1 - 12) with 1 by lia.
    replace (Z.min (monthrange_ndays (y + 1) 1) 1) with 1 by reflexivity.
    destruct (Z.ltb_spec i 119999).
    + destruct (check_date (y + 1) 1 1) eqn:Hc; [|reflexivity].
      exfalso. assert (check_date (y + 1) 1 1 = None); [|congruence].
      apply check_date_ok. replace (monthrange_ndays (y + 1) 1) with 31
        by reflexivity. lia.
    + replace y with 9999 by lia. reflexivity.
  - assert (Hlt : m + 1 + 1 <= 12)
      by (destruct (Z.gtb_spec (m + 1 + 1) 12); [discriminate|lia]).
    pose proof (monthrange_ndays_bounds y (m + 1 + 1) ltac:(lia)).
    rewrite Z.min_r by lia.
    destruct (Z.ltb_spec i 119999); [|lia].
    destruct (check_date y (m + 1 + 1) 1) eqn:Hc; [|reflexivity].
    exfalso. assert (check_date y (m + 1 + 1) 1 = None); [|congruence].
    apply check_date_ok. lia.
Qed.

Lemma month_range_loop_spec fuel :
  forall i j,
    12 <= i -> j <= last_month_index ->
    (Z.to_nat (j - i + 1) < fuel)%nat ->
    month_range_loop fuel (month_at i) (month_at j)
    = (month_starts i (j - i + 1),
       if (i <=? j) && (j =? last_month_index) then GenRaised year_overflow
       else GenDone).
Proof.
  induction fuel as [|fuel IH]; intros i j Hi Hj Hfuel; [lia|].
  simpl. rewrite dt_leb_month_at. unfold month_starts.
  destruct (Z.leb_spec i j) as [Hle|Hgt]; simpl andb.
  - rewrite add_one_month_month_at by lia.
    rewrite seqZ_cons by lia. simpl map.
    destruct (Z.ltb_spec i last_month_index) as [Hlt|Hge].
    + rewrite IH by lia. unfold month_starts.
      replace (j - (i + 1) + 1) with (Z.pred (j - i + 1)) by lia.
      f_equal.
      destruct (Z.leb_spec (i + 1) j), (Z.eqb_spec j last_month_index);
        simpl; try reflexivity; lia.
    + assert (i = j) as -> by lia.
      replace (j - j + 1) with 1 by lia. simpl.
      destruct (Z.eqb_spec j last_month_index); [reflexivity|lia].
  - rewrite seqZ_nil by lia. reflexivity.
Qed.

Lemma month_range_year_months ys ms ye me :
  1 <= ys <= 9999 -> 1 <= ms <= 12 -> 1 <= ye <= 9999 -> 1 <= me <= 12 ->
  let s := first_of_month ys ms in
  let e := first_of_month ye me in
  month_range s e
  = (month_starts (month_index s) (month_index e - month_index s + 1),
     if (month_index s <=? month_index e) && (month_index e =? last_month_index)
     then GenRaised year_overflow else GenDone).
Proof.
  intros Hys Hms Hye Hme s e. unfold month_range.
  change (replace_day1 s) with s. change (replace_day1 e) with e.
  assert (12 <= month_index s /\ month_index e <= last_month_index) as [? ?].
  { subst s e. unfold month_index, last_month_index, MAXYEAR.
    cbn [year month first_of_month]. lia. }
  pose proof (month_at_index ys ms Hms) as Hs.
  pose proof (month_at_index ye me Hme) as He. fold s in Hs. fold e in He.
  set (i := month_index s) in *. set (j := month_index e) in *.
  rewrite <- Hs, <- He.
  apply month_range_loop_spec; [assumption|assumption|lia].
Qed.

(** At December 9999 the step past the last month leaves the range of
    [datetime]: the generator yields every month and then raises. *)
Lemma month_range_overflow start_str s e :
  parse_month start_str = Some s -> parse_month "9999-12" = Some e ->
  month_range s e
  = (month_starts (month_index s) (month_index e - month_index s + 1),
     GenRaised year_overflow).
Proof.
  intros (ys & ms & -> & Hys & Hms)%parse_month_some He.
  vm_compute in He. injection He as <-.
  change (DateTime 9999 12 1 0 0 0 0) with (first_of_month 9999 12).
  rewrite (month_range_year_months ys ms 9999 12) by lia.
  f_equal.
  replace (month_index (first_of_month 9999 12)) with last_month_index
    by reflexivity.
  destruct (Z.leb_spec (month_index (first_of_month ys ms)) last_month_index).
  - reflexivity.
  - exfalso. revert H. unfold month_index, last_month_index, MAXYEAR.
    cbn [year month first_of_month]. lia.
Qed.

(** ** C7: the month range *)

(** C7. For every pair of year-month values [start] and [end],
    [month_range] yields the first-of-month instants from [start]'s month
    to [end]'s month, both included and in order, and it stops:
    the loop always ends. When [start > end] nothing is yielded and the
    generator returns at once. Whenever [end] is before December 9999 the
    generator returns normally after the last month. For ["2026-01"] and
    ["2026-03"] the months yielded are 2026-01-01, 2026-02-01 and
    2026-03-01, in that order. *)
Theorem month_range_sequence start_str end_str s e :
  parse_month start_str = Some s ->
  parse_month end_str = Some e ->
  fst (month_range s e)
  = month_starts (month_index s) (month_index e - month_index s + 1)
  /\ snd (month_range s e) <> GenFuel
  /\ (dt_leb s e = false -> month_range s e = ([], GenDone))
  /\ (month_index e < last_month_index -> snd (month_range s e) = GenDone)
  /\ (s' ← parse_month "2026-01"; e' ← parse_month "2026-03";
      Some (month_range s' e'))
     = Some ([first_of_month 2026 1; first_of_month 2026 2;
              first_of_month 2026 3], GenDone).
Proof.
  intros (ys & ms & -> & Hys & Hms)%parse_month_some
         (ye & me & -> & Hye & Hme)%parse_month_some.
  rewrite (month_range_year_months ys ms ye me) by assumption.
  set (i := month_index (first_of_month ys ms)).
  set (j := month_index (first_of_month ye me)).
  cbn [fst snd].
  split; [reflexivity|]. split; [|split; [|split]].
  - destruct (_ && _); discriminate.
  - rewrite <- (month_at_index ys ms Hms), <- (month_at_index ye me Hme).
    fold i j. rewrite dt_leb_month_at. intros Hgt%Z.leb_gt.
    unfold month_starts. rewrite seqZ_nil by lia.
    destruct (Z.leb_spec i j); [lia|reflexivity].
  - intros Hlt. destruct (Z.eqb_spec j last_month_index); [lia|].
    rewrite andb_false_r. reflexivity.
  - vm_compute. reflexivity.
Qed.

Lemma month_range_sequence_witness :
  fst (month_range (first_of_month 2026 1) (first_of_month 2026 3))
  = [first_of_month 2026 1; first_of_month 2026 2; first_of_month 2026 3].
Proof.
  apply (month_range_sequence "2026-01" "2026-03"
           (first_of_month 2026 1) (first_of_month 2026 3));
    reflexivity.
Defined.

(** * Further properties of the filename deriver *)

Lemma rstrip_rstrip s : rstrip (rstrip s) = rstrip s.
Proof.
  induction s as [|c r IH]; [reflexivity|]. simpl.
  destruct (rstrip r) as [|d r'] eqn:Hr.
  - destruct (is_space c) eqn:Hc; [reflexivity|]. simpl. rewrite Hc. reflexivity.
  - change (rstrip (String c (String d r'))) with
      (match rstrip (String d r') with
       | EmptyString => if is_space c then EmptyString else String c EmptyString
       | x => String c x
       end).
    rewrite IH. reflexivity.
Qed.

Lemma lstrip_head s :
  lstrip s = EmptyString \/ exists c r, lstrip s = String c r /\ is_space c = false.
Proof.
  induction s as [|c r IH]; [left; reflexivity|]. simpl.
  destruct (is_space c) eqn:Hc; [exact IH|]. right. eauto.
Qed.

Lemma rstrip_head c r :
  is_space c = false -> exists r', rstrip (String c r) = String c r'.
Proof.
  intros Hc. simpl. destruct (rstrip r); rewrite ?Hc; eauto.
Qed.

Lemma strip_strip s : strip (strip s) = strip s.
Proof.
  unfold strip. destruct (lstrip_head s) as [->|(c & r & -> & Hc)];
    [reflexivity|].
  destruct (rstrip_head c r Hc) as [r' Hr]. rewrite Hr.
  simpl lstrip. rewrite Hc, <- Hr. apply rstrip_rstrip.
Qed.

Lemma join_filter_id keep s :
  (forall c, char_in c s = true -> keep c = true) -> join_filter keep s = s.
Proof.
  induction s as [|d r IH]; [reflexivity|]. intros Hall. simpl.
  rewrite (Hall d) by (simpl; unfold ascii_eqb; rewrite bool_decide_eq_true_2;
                        reflexivity).
  rewrite IH; [reflexivity|]. intros c Hc. apply Hall. simpl. rewrite Hc.
  apply orb_true_r.
Qed.

Lemma safe_filename_kept name c :
  char_in c (safe_filename name) = true -> char_in c reserved = false.
Proof.
  intros H. destruct (char_in c reserved) eqn:Hr; [|reflexivity].
  rewrite (safe_filename_no_reserved name c Hr) in H. discriminate.
Qed.

(** What [safe_filename] returns has no whitespace left to strip and no
    reserved character left to drop: sanitizing twice changes nothing. *)
Theorem safe_filename_idempotent name :
  strip (safe_filename name) = safe_filename name
  /\ safe_filename (safe_filename name) = safe_filename name.
Proof.
  assert (Hs : strip (safe_filename name) = safe_filename name)
    by apply strip_strip.
  split; [exact Hs|].
  unfold safe_filename at 1. rewrite join_filter_id; [exact Hs|].
  intros c Hc. rewrite (safe_filename_kept name c Hc). reflexivity.
Qed.

(** No reserved character survives [safe_filename], whatever the name. *)
Theorem safe_filename_reserved_free name c :
  char_in c reserved && char_in c (safe_filename name) = false.
Proof.
  destruct (char_in c reserved) eqn:Hr; [|reflexivity].
  simpl. apply safe_filename_no_reserved. exact Hr.
Qed.

Lemma decimal_loop_head fuel n acc :
  fuel <> O ->
  exists k r, 0 <= k < 10 /\ decimal_loop fuel n acc = String (digit_char k) r.
Proof.
  revert n acc. induction fuel as [|f IH]; intros n acc Hf; [congruence|].
  simpl. destruct (n <? 10).
  - exists (n mod 10), acc. split; [Z.div_mod_to_equations; lia|reflexivity].
  - destruct f as [|f'].
    + exists (n mod 10), acc. split; [Z.div_mod_to_equations; lia|reflexivity].
    + apply IH. discriminate.
Qed.

Lemma digit_char_props k :
  0 <= k < 10 ->
  is_digit (digit_char k) = true /\ digit_val (digit_char k) = k
  /\ is_space (digit_char k) = false /\ char_in (digit_char k) reserved = false
  /\ ascii_eqb (digit_char k) "/" = false.
Proof.
  intros Hk.
  assert (k = 0 \/ k = 1 \/ k = 2 \/ k = 3 \/ k = 4 \/ k = 5 \/ k = 6 \/ k = 7
          \/ k = 8 \/ k = 9) as Hc by lia.
  repeat (destruct Hc as [Hc|Hc]; [subst k; vm_compute; auto|]).
  subst k; vm_compute; auto.
Qed.

Lemma decimal_head n :
  exists k r, 0 <= k < 10 /\ decimal n = String (digit_char k) r.
Proof. unfold decimal. apply decimal_loop_head. discriminate. Qed.

Lemma tag_start_props c :
  tag_start c ->
  is_space c = false /\ char_in c reserved = false /\ ascii_eqb c "/" = false.
Proof.
  intros [(k & Hk & ->)| ->].
  - destruct (digit_char_props k Hk) as (_ & _ & ? & ? & ?). auto.
  - vm_compute. auto.
Qed.

Lemma build_filename_head a :
  exists c r, build_filename a = String c r /\ tag_start c.
Proof.
  unfold build_filename, safe_filename, strip.
  assert (Hbase : exists c r,
             (match asset_timestamp a with
              | Some t => strftime_tag t
              | None => "unknown"
              end) +:+ "_" +:+ str_or (filename a) (asset_id a) = String c r
             /\ tag_start c).
  { destruct (asset_timestamp a) as [t|].
    - unfold strftime_tag.
      destruct (decimal_head (year t)) as (k & r & Hk & ->).
      eexists _, _. split; [reflexivity|]. left. eauto.
    - eexists _, _. split; [reflexivity|]. right. reflexivity. }
  destruct Hbase as (c & r & -> & Hc).
  destruct (tag_start_props c Hc) as (Hsp & Hres & _).
  cbn [join_filter]. rewrite Hres. cbn [negb lstrip]. rewrite Hsp.
  destruct (rstrip_head c (join_filter (fun c0 => negb (char_in c0 reserved)) r) Hsp)
    as [r' ->].
  eauto.
Qed.

(** The derived name never begins with a slash, so [os.path.join] never
    discards the output directory: the target path is the directory, a
    separating slash unless the directory is empty or already ends with
    one, and the target name. *)
Theorem target_path_under_out_dir a out_dir :
  target_path_of a out_dir
  = out_dir
    +:+ (if String.eqb out_dir "" || ends_with_slash out_dir then "" else "/")
    +:+ (build_filename a +:+ file_ext a).
Proof.
  unfold target_path_of, path_join.
  destruct (build_filename_head a) as (c & r & -> & Hc).
  destruct (tag_start_props c Hc) as (_ & _ & Hslash).
  simpl starts_with_slash. rewrite Hslash.
  destruct (String.eqb out_dir "" || ends_with_slash out_dir); reflexivity.
Qed.

Lemma lower_char_idem c : lower_char (lower_char c) = lower_char c.
Proof. destruct c as [[] [] [] [] [] [] [] []]; reflexivity. Qed.

Lemma lower_idem s : lower (lower s) = lower s.
Proof.
  induction s as [|c r IH]; [reflexivity|]. simpl.
  rewrite lower_char_idem, IH. reflexivity.
Qed.

Lemma last_part_no_dot s : char_in "." (last_part (split "." s)) = false.
Proof.
  induction s as [|c r IH]; [reflexivity|]. simpl.
  destruct (ascii_eqb c ".") eqn:Hc.
  - rewrite last_part_cons by apply split_nonempty. exact IH.
  - pose proof (split_nonempty "." r) as Hne.
    destruct (split "." r) as [|p [|q qs]]; [congruence| |exact IH].
    unfold last_part in *. simpl in *.
    rewrite (ascii_eqb_sym _ c), Hc. exact IH.
Qed.

(** The extension always begins with a dot, holds no other dot, and is in
    lower case. *)
Theorem file_ext_shape a :
  exists e, file_ext a = String "." e
            /\ char_in "." e = false /\ lower e = e.
Proof.
  unfold file_ext.
  destruct (char_in "." (lower (str_or (filename a) ""))).
  - exists (last_part (split "." (lower (str_or (filename a) "")))).
    split; [reflexivity|]. split; [apply last_part_no_dot|].
    rewrite split_dot_lower, last_part_lower. apply lower_idem.
  - destruct (is_video a); eexists; (split; [reflexivity|]);
      split; reflexivity.
Qed.

Lemma lower_app s t : lower (s +:+ t) = lower s +:+ lower t.
Proof.
  induction s as [|c r IH]; [reflexivity|]. simpl. rewrite IH. reflexivity.
Qed.

Lemma char_in_app_dot s : char_in "." (s +:+ ".") = true.
Proof.
  induction s as [|c r IH]; [reflexivity|]. simpl. rewrite IH.
  apply orb_true_r.
Qed.

Lemma last_part_trailing_dot s : last_part (split "." (s +:+ ".")) = "".
Proof.
  induction s as [|c r IH]; [reflexivity|].
  change (String c r +:+ ".") with (String c (r +:+ ".")).
  destruct (split_with_dot _ (char_in_app_dot r)) as (p & q & qs & Hs).
  simpl split. rewrite Hs in *.
  destruct (ascii_eqb c "."); exact IH.
Qed.

(** A filename that ends with a dot gets the bare extension ["."], not a
    default: the name contains a dot, and nothing follows the last one. *)
Theorem file_ext_trailing_dot a s :
  filename a = Some (s +:+ ".") -> file_ext a = ".".
Proof.
  intros Hf. unfold file_ext. rewrite Hf.
  replace (str_or (Some (s +:+ ".")) "") with (s +:+ ".")
    by (destruct s; reflexivity).
  rewrite lower_app. change (lower ".") with ".".
  rewrite char_in_app_dot, last_part_trailing_dot. reflexivity.
Qed.

Lemma file_ext_trailing_dot_witness :
  file_ext (Asset "A4" (Some "scan.") "image" None (fun _ => Raises (Exn "E" "")))
  = ".".
Proof. apply (file_ext_trailing_dot _ "scan"). reflexivity. Defined.

(** * Further properties of the downloader *)

Lemma write_chunks_concat chunks f : write_chunks chunks f = (f ++ concat chunks)%list.
Proof.
  revert f. induction chunks as [|c cs IH]; intros f; simpl.
  - rewrite app_nil_r. reflexivity.
  - rewrite IH. destruct c; [reflexivity|]. rewrite <- app_assoc. reflexivity.
Qed.

Lemma retry_loop_then_ok a tp mr resp files' k :
  forall fuel att le w,
    (forall i, (i < k)%nat -> exists e, download a (calls w + i) = Raises e) ->
    download a (calls w + k) = Returns resp ->
    save_stream_to_file resp tp (fs w) = (None, files') ->
    att + Z.of_nat k < mr -> (k < fuel)%nat ->
    retry_loop fuel a tp mr att le w
    = Some ((Some tp, "ok"),
            World files' (calls w + k + 1)
              (log w ++ failed_attempts k att ++ [EvDownload])).
Proof.
  induction k as [|k IH]; intros fuel att le w Hfail Hok Hsave Hlt Hfuel;
    (destruct fuel as [|fuel]; [lia|]); simpl retry_loop;
    (destruct (Z.ltb_spec att mr); [|lia]).
  - rewrite Nat.add_0_r in Hok. unfold fetch_and_save. rewrite Hok.
    cbn [fs calls log]. rewrite Hsave.
    replace (calls w + 0 + 1)%nat with (S (calls w)) by lia. reflexivity.
  - destruct (Hfail O ltac:(lia)) as [e He]. rewrite Nat.add_0_r in He.
    rewrite (fetch_and_save_raises _ _ _ _ He).
    rewrite (IH fuel (att + 1) (Some e)); cbn [fs calls log sleep].
    + replace (S (calls w) + k + 1)%nat with (calls w + S k + 1)%nat by lia.
      simpl failed_attempts. rewrite <- !app_assoc. reflexivity.
    + intros i Hi. destruct (Hfail (S i) ltac:(lia)) as [e' He'].
      exists e'. rewrite <- He'. f_equal. lia.
    + rewrite <- Hok. f_equal. lia.
    + exact Hsave.
    + lia.
    + lia.
Qed.

(** When the first [k] download calls raise and the next one returns a
    response that is saved without error, with [k < max_retries], the call
    returns the target path with status ["ok"] after [k + 1] download
    calls and [k] backoff sleeps, and the file system is the one the save
    produced. *)
Theorem download_asset_succeeds_after_failures
    skip a out_dir max_retries w (k : nat) resp files' :
  skip && is_video a = false ->
  exists_nonempty (fs w) (target_path_of a out_dir) = false ->
  (forall i, (i < k)%nat -> exists e, download a (calls w + i) = Raises e) ->
  download a (calls w + k) = Returns resp ->
  save_stream_to_file resp (target_path_of a out_dir) (fs w) = (None, files') ->
  Z.of_nat k < max_retries ->
  download_asset skip a out_dir max_retries w
  = Some ((Some (target_path_of a out_dir), "ok"),
          World files' (calls w + k + 1)
            (log w ++ failed_attempts k 0 ++ [EvDownload])).
Proof.
  intros Hv He Hfail Hok Hsave Hk. unfold download_asset. rewrite Hv, He.
  apply (retry_loop_then_ok _ _ _ resp); auto; lia.
Qed.

Lemma download_asset_succeeds_after_failures_witness :
  let a := Asset "A5" (Some "IMG_0005.JPG") "image" (Some jan5)
             (fun i => match i with
                       | O => Raises (Exn "ConnectionError" "reset")
                       | _ => Returns (RawBytes ["d"%byte])
                       end) in
  download_asset false a "/out" 3 w0
  = Some ((Some (target_path_of a "/out"), "ok"),
          World (<[target_path_of a "/out" := ["d"%byte]]> ∅) 2
            [EvDownload; EvSleep (backoff 1); EvDownload]).
Proof.
  intros a.
  apply (download_asset_succeeds_after_failures false a "/out" 3 w0 1
           (RawBytes ["d"%byte])).
  - reflexivity.
  - reflexivity.
  - intros i Hi. assert (i = O) as -> by lia. eexists. reflexivity.
  - reflexivity.
  - reflexivity.
  - lia.
Defined.

Lemma fetch_and_save_ok a tp w w' :
  fetch_and_save a tp w = (None, w') -> exists data, fs w' !! tp = Some data.
Proof.
  unfold fetch_and_save.
  destruct (download a (calls w)) as [e|[chunks failure|data|ty]];
    simpl; intros H; inversion H; subst; simpl; rewrite lookup_insert_eq; eauto.
Qed.

Lemma retry_loop_ok_file fuel a tp mr att le w p w1 :
  retry_loop fuel a tp mr att le w = Some ((p, "ok"), w1) ->
  p = Some tp /\ exists data, fs w1 !! tp = Some data.
Proof.
  revert att le w. induction fuel as [|fuel IH]; intros att le w; [discriminate|].
  simpl. destruct (att <? mr); [|discriminate].
  destruct (fetch_and_save a tp w) as [[e|] w'] eqn:Hfs.
  - apply IH.
  - intros [= <- <-]. split; [reflexivity|]. eapply fetch_and_save_ok; eauto.
Qed.

(** After a call that returned ["ok"], the target file exists. If it is
    non-empty, every later call for an asset with the same target path
    (the same asset on a re-run, or another asset whose derived name
    collides) returns ["skip"] and changes nothing; if the download was
    empty, the same asset is not skipped. *)
Theorem download_ok_then_skip skip a out_dir max_retries w p w1 :
  download_asset skip a out_dir max_retries w = Some ((p, "ok"), w1) ->
  p = Some (target_path_of a out_dir)
  /\ exists data,
       fs w1 !! target_path_of a out_dir = Some data
       /\ (data <> [] ->
           forall b max_retries',
             target_path_of b out_dir = target_path_of a out_dir ->
             skip && is_video b = false ->
             download_asset skip b out_dir max_retries' w1
             = Some ((p, "skip"), w1))
       /\ (data = [] ->
           forall max_retries' r w2,
             download_asset skip a out_dir max_retries' w1 = Some (r, w2) ->
             snd r <> "skip").
Proof.
  unfold download_asset at 1.
  destruct (skip && is_video a) eqn:Hv; [discriminate|].
  destruct (exists_nonempty (fs w) _); [discriminate|].
  intros [-> (data & Hdata)]%retry_loop_ok_file.
  split; [reflexivity|]. exists data. split; [exact Hdata|]. split.
  - intros Hne b mr' Hb Hvb. unfold download_asset.
    rewrite Hvb, Hb. unfold exists_nonempty. rewrite Hdata.
    destruct data; [congruence|reflexivity].
  - intros -> mr' r w2. unfold download_asset. rewrite Hv.
    unfold exists_nonempty. rewrite Hdata. cbn [length Nat.ltb Nat.leb].
    intros Hloop.
    destruct (retry_loop_status _ _ _ _ _ _ _ _ _ Hloop) as [-> | ->];
      discriminate.
Qed.

Lemma download_ok_then_skip_witness :
  let a := Asset "A6" (Some "IMG_0006.JPG") "image" (Some jan5)
             (fun _ => Returns (RawBytes ["d"%byte])) in
  let w1 := World (<[target_path_of a "/out" := ["d"%byte]]> ∅) 1 [EvDownload] in
  download_asset false a "/out" 3 w1
  = Some ((Some (target_path_of a "/out"), "skip"), w1).
Proof.
  intros a w1.
  destruct (download_ok_then_skip false a "/out" 3 w0
              (Some (target_path_of a "/out")) w1 eq_refl)
    as (_ & data & Hdata & Hskip & _).
  apply Hskip; [|reflexivity|reflexivity].
  intros ->. vm_compute in Hdata. discriminate.
Defined.

Lemma fetch_and_save_frame a tp w r w' p :
  fetch_and_save a tp w = (r, w') -> p <> tp -> fs w' !! p = fs w !! p.
Proof.
  unfold fetch_and_save.
  destruct (download a (calls w)) as [e|[chunks failure|data|ty]];
    simpl; intros [= _ <-] Hp; simpl; rewrite ?lookup_insert_ne; congruence.
Qed.

Lemma retry_loop_frame fuel a tp mr att le w r w1 p :
  retry_loop fuel a tp mr att le w = Some (r, w1) ->
  p <> tp -> fs w1 !! p = fs w !! p.
Proof.
  revert att le w. induction fuel as [|fuel IH]; intros att le w; [discriminate|].
  simpl. destruct (att <? mr).
  - destruct (fetch_and_save a tp w) as [[e|] w'] eqn:Hfs.
    + intros Hloop Hp. rewrite (IH _ _ _ Hloop Hp). simpl.
      apply (fetch_and_save_frame _ _ _ _ _ _ Hfs Hp).
    + intros [= _ <-] Hp. apply (fetch_and_save_frame _ _ _ _ _ _ Hfs Hp).
  - intros [= _ <-] _. reflexivity.
Qed.

Lemma retry_loop_calls_bound fuel a tp mr att le w r w1 :
  retry_loop fuel a tp mr att le w = Some (r, w1) ->
  (calls w1 <= calls w + Z.to_nat (mr - att))%nat.
Proof.
  revert att le w. induction fuel as [|fuel IH]; intros att le w; [discriminate|].
  simpl. destruct (Z.ltb_spec att mr).
  - destruct (fetch_and_save a tp w) as [[e|] w'] eqn:Hfs;
      apply fetch_and_save_calls in Hfs.
    + intros Hloop. apply IH in Hloop. simpl in Hloop. lia.
    + intros [= _ <-]. lia.
  - intros [= _ <-]. lia.
Qed.

Lemma download_asset_effects skip a out_dir max_retries w r w1 :
  download_asset skip a out_dir max_retries w = Some (r, w1) ->
  (forall p, p <> target_path_of a out_dir \/ exists_nonempty (fs w) p = true ->
             fs w1 !! p = fs w !! p)
  /\ (calls w <= calls w1 <= calls w + Z.to_nat max_retries)%nat.
Proof.
  unfold download_asset.
  destruct (skip && is_video a).
  { intros [= _ <-]. split; [reflexivity|lia]. }
  destruct (exists_nonempty (fs w) (target_path_of a out_dir)) eqn:He.
  { intros [= _ <-]. split; [reflexivity|lia]. }
  intros Hloop. split.
  - intros p [Hp|Hp].
    + apply (retry_loop_frame _ _ _ _ _ _ _ _ _ _ Hloop Hp).
    + apply (retry_loop_frame _ _ _ _ _ _ _ _ _ _ Hloop). congruence.
  - pose proof (retry_loop_calls_mono _ _ _ _ _ _ _ _ _ Hloop).
    pose proof (retry_loop_calls_bound _ _ _ _ _ _ _ _ _ Hloop) as Hb.
    rewrite Z.sub_0_r in Hb. lia.
Qed.

(** A call of [download_asset] touches no file but its target, leaves a
    non-empty file as it is, and invokes the download capability at most
    [max_retries] times (never, when [max_retries] is not positive). *)
Theorem download_asset_frame skip a out_dir max_retries w r w1 :
  download_asset skip a out_dir max_retries w = Some (r, w1) ->
  (forall p, p <> target_path_of a out_dir \/ exists_nonempty (fs w) p = true ->
             fs w1 !! p = fs w !! p)
  /\ (calls w <= calls w1 <= calls w + Z.to_nat max_retries)%nat.
Proof. apply download_asset_effects. Qed.

Lemma download_asset_frame_witness :
  let w := World {[ "/out/other.jpg" := ["o"%byte] ]} 0 [] in
  let w1 := World {[ "/out/other.jpg" := ["o"%byte] ]} 3
              (failed_attempts 3 0) in
  (forall p, p <> target_path_of always_raises "/out"
             \/ exists_nonempty (fs w) p = true ->
             fs w1 !! p = fs w !! p)
  /\ (calls w <= calls w1 <= calls w + Z.to_nat 3)%nat.
Proof.
  intros w w1.
  apply (download_asset_frame false always_raises "/out" 3 w
           (Some "ConnectionError: timed out", "error") w1).
  reflexivity.
Defined.

Lemma sleep_total_failed_attempts n att :
  (sleep_total (failed_attempts n att)
   == (3 # 4) * inject_Z (Z.of_nat n * (2 * att + Z.of_nat n + 1)))%Q.
Proof.
  revert att. induction n as [|n IH]; intros att.
  - simpl. reflexivity.
  - cbn [failed_attempts sleep_total]. rewrite IH. unfold backoff.
    rewrite Nat2Z.inj_succ. unfold Z.succ.
    rewrite !inject_Z_mult, !inject_Z_plus, !inject_Z_mult, !inject_Z_plus.
    ring.
Qed.

(** When every download call raises, a call with [max_retries = n] makes
    exactly [n] download calls, each followed by its backoff sleep, and
    sleeps [0.75 * n * (n + 1)] seconds in all before it returns
    ["error"]; no file is touched. *)
Theorem download_asset_exhausts_n skip a out_dir w (err : nat -> exn) (n : nat) :
  skip && is_video a = false ->
  exists_nonempty (fs w) (target_path_of a out_dir) = false ->
  (forall k, download a k = Raises (err k)) ->
  (exists msg,
     download_asset skip a out_dir (Z.of_nat n) w
     = Some ((Some msg, "error"),
             World (fs w) (calls w + n) (log w ++ failed_attempts n 0)))
  /\ (sleep_total (failed_attempts n 0)
      == (3 # 4) * inject_Z (Z.of_nat n * (Z.of_nat n + 1)))%Q.
Proof.
  intros Hv He Herr. split.
  - unfold download_asset. rewrite Hv, He. eexists.
    change (Z.of_nat n) with (0 + Z.of_nat n) at 2.
    rewrite Nat2Z.id.
    rewrite (retry_loop_all_raise err a _ Herr n) by lia. reflexivity.
  - rewrite sleep_total_failed_attempts.
    replace (2 * 0 + Z.of_nat n + 1) with (Z.of_nat n + 1) by lia. reflexivity.
Qed.

Lemma download_asset_exhausts_n_witness :
  (exists msg,
     download_asset false always_raises "/out" (Z.of_nat 5) w0
     = Some ((Some msg, "error"),
             World (fs w0) (calls w0 + 5) (log w0 ++ failed_attempts 5 0)))
  /\ (sleep_total (failed_attempts 5 0)
      == (3 # 4) * inject_Z (Z.of_nat 5 * (Z.of_nat 5 + 1)))%Q.
Proof.
  apply (download_asset_exhausts_n false always_raises "/out" w0
           (fun _ => Exn "ConnectionError" "timed out") 5);
    [reflexivity | reflexivity | intros k; reflexivity].
Defined.

(** * Further properties of the month planner *)

Lemma strftime_month_digits y m :
  1000 <= y <= 9999 -> 0 <= m <= 99 ->
  strftime_month (first_of_month y m)
  = four_digits y +:+ "-" +:+ two_digits m.
Proof.
  intros Hy Hm. unfold strftime_month. cbn [year month first_of_month].
  rewrite decimal_four_digits, zfill2_two_digits by lia. reflexivity.
Qed.

Lemma parse_month_field_two_digits m :
  1 <= m <= 12 -> parse_month_field (two_digits m) = Some m.
Proof. intros Hm. month_cases m; reflexivity. Qed.

Lemma parse_four_digits y rest :
  0 <= y <= 9999 ->
  exists a b c d,
    four_digits y +:+ "-" +:+ rest
    = String a (String b (String c (String d (String "-" rest))))
    /\ is_digit a && is_digit b && is_digit c && is_digit d
       && ascii_eqb "-" "-" = true
    /\ 1000 * digit_val a + 100 * digit_val b + 10 * digit_val c + digit_val d
       = y.
Proof.
  intros Hy. unfold four_digits, two_digits.
  eexists _, _, _, _. split; [reflexivity|].
  destruct (digit_char_props (y / 1000)) as (-> & -> & _);
    [Z.div_mod_to_equations; lia|].
  destruct (digit_char_props (y / 100 mod 10)) as (-> & -> & _);
    [Z.div_mod_to_equations; lia|].
  destruct (digit_char_props (y mod 100 / 10)) as (-> & -> & _);
    [Z.div_mod_to_equations; lia|].
  destruct (digit_char_props (y mod 100 mod 10)) as (-> & -> & _);
    [Z.div_mod_to_equations; lia|].
  split; [reflexivity|]. Z.div_mod_to_equations; lia.
Qed.

Lemma parse_strftime_year_month y m :
  1000 <= y <= 9999 -> 1 <= m <= 12 ->
  parse_month (strftime_month (first_of_month y m)) = Some (first_of_month y m).
Proof.
  intros Hy Hm. rewrite strftime_month_digits by lia.
  destruct (parse_four_digits y (two_digits m)) as (a & b & c & d & -> & Hd & Hval);
    [lia|].
  unfold parse_month. rewrite Hd, Hval, parse_month_field_two_digits by lia.
  assert (Hc : check_date y m 1 = None).
  { apply check_date_ok. pose proof (monthrange_ndays_bounds y m Hm). lia. }
  rewrite Hc. reflexivity.
Qed.

(** With a three-digit year the month tag has no four-digit year for
    [parse_month] to read. *)
Example parse_month_tag_year_999 :
  strftime_month (first_of_month 999 1) = "999-01"
  /\ parse_month "999-01" = None.
Proof. split; reflexivity. Qed.

(** Formatting a month as [%Y-%m] and parsing it back gives the month
    again, for every year from 1000 to 9999 and every month. *)
Theorem parse_month_strftime_month y m :
  1000 <= y <= 9999 -> 1 <= m <= 12 ->
  parse_month (strftime_month (first_of_month y m)) = Some (first_of_month y m).
Proof. apply parse_strftime_year_month. Qed.

Lemma parse_month_strftime_month_witness :
  parse_month (strftime_month (first_of_month 2026 1))
  = Some (first_of_month 2026 1).
Proof. apply parse_month_strftime_month; lia. Defined.

(** Whatever string [parse_month] accepts (a month may be written with one
    digit), the result is the first day of a month at midnight, its year in
    1..9999 and its month in 1..12; when the year is 1000 or later, its
    [%Y-%m] tag parses to the same value. *)
Theorem parse_month_canonical str d :
  parse_month str = Some d ->
  d = DateTime (year d) (month d) 1 0 0 0 0
  /\ 1 <= year d <= 9999 /\ 1 <= month d <= 12
  /\ (1000 <= year d -> parse_month (strftime_month d) = Some d).
Proof.
  intros (y & m & -> & Hy & Hm)%parse_month_some.
  cbn [year month first_of_month].
  split; [reflexivity|]. split; [exact Hy|]. split; [exact Hm|].
  intros Hy1000. apply parse_strftime_year_month; [lia|assumption].
Qed.

Lemma parse_month_canonical_witness :
  let d := first_of_month 2026 1 in
  d = DateTime (year d) (month d) 1 0 0 0 0
  /\ 1 <= year d <= 9999 /\ 1 <= month d <= 12
  /\ (1000 <= year d -> parse_month (strftime_month d) = Some d).
Proof. apply (parse_month_canonical "2026-1"). reflexivity. Defined.

Lemma dt_leb_lex a b :
  dt_leb a b = true <->
  year a < year b \/ (year a = year b /\
  (month a < month b \/ (month a = month b /\
  (day a < day b \/ (day a = day b /\
  (hour a < hour b \/ (hour a = hour b /\
  (minute a < minute b \/ (minute a = minute b /\
  (second a < second b \/ (second a = second b /\
   microsecond a <= microsecond b))))))))))).
Proof.
  unfold dt_leb, dt_compare.
  destruct (Z.compare_spec (year a) (year b));
    [destruct (Z.compare_spec (month a) (month b));
     [destruct (Z.compare_spec (day a) (day b));
      [destruct (Z.compare_spec (hour a) (hour b));
       [destruct (Z.compare_spec (minute a) (minute b));
        [destruct (Z.compare_spec (second a) (second b));
         [destruct (Z.compare_spec (microsecond a) (microsecond b))
         |..]|..]|..]|..]|..]|..];
    split; intros; try discriminate; try reflexivity; lia.
Qed.

(** A valid timestamp lies within the bounds of a month exactly when it
    has that year and month and is not past 23:59:59.000000 of the last
    day: the instants of the month's final second that have a non-zero
    microsecond part are outside the bounds. *)
Theorem month_bounds_membership y m t :
  1 <= m <= 12 -> valid_datetime t ->
  let '(first, last) := month_bounds (first_of_month y m) in
  dt_leb first t && dt_leb t last = true <->
  year t = y /\ month t = m
  /\ ~ (day t = monthrange_ndays y m /\ hour t = 23 /\ minute t = 59
        /\ second t = 59 /\ 0 < microsecond t).
Proof.
  intros Hm (Hd & Hh & Hmi & Hs & Hus).
  apply check_date_ok in Hd as (_ & _ & Hday).
  unfold month_bounds, first_of_month.
  cbn [year month day hour minute second microsecond].
  rewrite andb_true_iff, !dt_leb_lex.
  cbn [year month day hour minute second microsecond].
  split.
  - intros [H1 H2].
    assert (year t = y /\ month t = m) as [Hy Hmo] by lia.
    rewrite Hy, Hmo in Hday. lia.
  - intros (Hy & Hmo & Hnot). rewrite Hy, Hmo in Hday. lia.
Qed.

Lemma month_bounds_membership_witness :
  let t := DateTime 2026 1 31 23 59 59 500000 in
  let '(first, last) := month_bounds (first_of_month 2026 1) in
  dt_leb first t && dt_leb t last = true <->
  year t = 2026 /\ month t = 1
  /\ ~ (day t = monthrange_ndays 2026 1 /\ hour t = 23 /\ minute t = 59
        /\ second t = 59 /\ 0 < microsecond t).
Proof.
  apply (month_bounds_membership 2026 1 (DateTime 2026 1 31 23 59 59 500000));
    [lia|].
  vm_compute. repeat split; discriminate.
Defined.

(** No asset is matched by the bounds of two different months: the months
    of a run select disjoint sets of assets. *)
Theorem months_select_disjoint a d1 d2 :
  is_in_month a (fst (month_bounds d1)) (snd (month_bounds d1)) = true ->
  is_in_month a (fst (month_bounds d2)) (snd (month_bounds d2)) = true ->
  year d1 = year d2 /\ month d1 = month d2.
Proof.
  unfold is_in_month, asset_timestamp.
  destruct (created a) as [t|]; [|discriminate].
  unfold month_bounds. cbn [fst snd year month].
  rewrite !andb_true_iff, !dt_leb_lex.
  cbn [year month day hour minute second microsecond].
  intros [H1 H2] [H3 H4]. lia.
Qed.

Lemma months_select_disjoint_witness :
  year (first_of_month 2026 1) = year (DateTime 2026 1 17 8 0 0 0)
  /\ month (first_of_month 2026 1) = month (DateTime 2026 1 17 8 0 0 0).
Proof.
  apply (months_select_disjoint always_raises); reflexivity.
Defined.

Lemma month_range_overflow_witness :
  month_range (first_of_month 9999 11) (first_of_month 9999 12)
  = ([first_of_month 9999 11; first_of_month 9999 12], GenRaised year_overflow).
Proof.
  apply (month_range_overflow "9999-11"); reflexivity.
Defined.

(** [month_range] resets the day of its arguments but not their time of
    day: when both lie in the same month and the start has the later hour,
    nothing is yielded, not even that month. *)
Theorem month_range_later_hour s e :
  year s = year e -> month s = month e -> hour e < hour s ->
  month_range s e = ([], GenDone).
Proof.
  intros Hy Hm Hh. unfold month_range.
  replace (month_index (replace_day1 e) - month_index (replace_day1 s) + 1)
    with 1 by (unfold month_index, replace_day1; cbn [year month]; lia).
  cbn [Z.to_nat Pos.to_nat Pos.iter_op Nat.add month_range_loop].
  destruct (dt_leb (replace_day1 s) (replace_day1 e)) eqn:Hle; [|reflexivity].
  apply dt_leb_lex in Hle. unfold replace_day1 in Hle.
  cbn [year month day hour minute second microsecond] in Hle. lia.
Qed.

Lemma month_range_later_hour_witness :
  month_range (DateTime 2026 1 3 10 0 0 0) (DateTime 2026 1 20 9 0 0 0)
  = ([], GenDone).
Proof. apply month_range_later_hour; simpl; lia. Defined.

(** * Properties of the download loop *)

Lemma download_asset_status skip a out_dir mr w r w1 :
  download_asset skip a out_dir mr w = Some (r, w1) ->
  snd r = "ok" \/ snd r = "skip" \/ snd r = "skipped_video" \/ snd r = "error".
Proof.
  unfold download_asset. destruct (skip && is_video a).
  { intros [= <- _]. auto. }
  destruct (exists_nonempty _ _).
  { intros [= <- _]. auto. }
  intros [->| ->]%retry_loop_status; auto.
Qed.



(** Over a month whose targets all exist and are non-empty, the loop
    changes nothing: no download call, no sleep, no file written, nothing
    printed; every asset is reported ["skip"] (or ["skipped_video"] where
    the flag applies). *)
Theorem download_matched_rerun skip assets out_dir w :
  Forall (fun a => exists_nonempty (fs w) (target_path_of a out_dir) = true)
    assets ->
  let rs := map (fun a => if skip && is_video a
                          then (None, "skipped_video")
                          else (Some (target_path_of a out_dir), "skip"))
              assets in
  download_matched skip assets out_dir w = Some (rs, w)
  /\ error_lines rs = [].
Proof.
  intros Hall. induction Hall as [|a rest Ha _ IH]; [split; reflexivity|].
  destruct IH as [IHrun IHerr]. cbn [download_matched map].
  unfold download_asset. rewrite Ha.
  destruct (skip && is_video a); cbn [String.eqb Ascii.eqb Bool.eqb];
    rewrite IHrun; split; try reflexivity; exact IHerr.
Qed.

Lemma download_matched_rerun_witness :
  let w := World {[ target_path_of always_raises "/out" := ["x"%byte];
                    target_path_of broken_stream "/out" := ["y"%byte] ]} 0 [] in
  download_matched false [always_raises; broken_stream] "/out" w
  = Some ([(Some (target_path_of always_raises "/out"), "skip");
           (Some (target_path_of broken_stream "/out"), "skip")], w)
  /\ error_lines [(Some (target_path_of always_raises "/out"), "skip");
                  (Some (target_path_of broken_stream "/out"), "skip")] = [].
Proof.
  intros w.
  apply (download_matched_rerun false [always_raises; broken_stream] "/out" w).
  repeat constructor.
Defined.
